(** * 2D_drone_sim: a two-motor drone integrated by a Runge-Kutta stepper

    Shallow embedding of [2D_drone_sim.c].

    Number model.  The program computes on C [double]s.  Here a [double] is a
    real number and [+ - * /] are the exact field operations, so every
    statement below is a statement in exact arithmetic: rounding, overflow,
    infinities and NaN are outside the model.  In particular [x / 0] is a
    total operation of [R] while it is [inf] or [NaN] on doubles.

    The C constants ([Lm], [Rm], ..., [End_time]) and the three literals of
    [drone_sim] (the two voltages and the step size [h]) are gathered in a
    record [config]; [nominal] holds the values written in the source.

    The one place where rounding decides what the program prints is the time
    variable: how many turns the loop takes depends on the rounded sums
    [t + h].  The time variable is therefore embedded a second time, on
    binary64 ([time_loop], [time_column]); every statement about the number of
    turns, the last record or the end of the run is made there. *)

From Stdlib Require Import Reals Lra Lia List.
From Stdlib Require Import Zfloor Machin.
From Stdlib Require Import Floats.
Import ListNotations.

Set Warnings "-inexact-float,-abstract-large-number".

Open Scope R_scope.

(** ** Constants *)

(** C [double] *)
Abbreviation double := R (only parsing).

(** [enum { RIGHT, LEFT }] *)
Inductive side : Set := RIGHT | LEFT.

Record config : Type := Config {
  Lm : double;        (* Inductance[H] *)
  Rm : double;        (* Resistance[Ohm] *)
  Km : double;        (* Torque constant[Nm/A] *)
  Jm : double;        (* Moment of inertia[kg m^2] *)
  Cq : double;        (* Cofficient of torque (Propeller) *)
  Dm : double;        (* Cofficient of viscous damping [Nm s] *)
  Ct : double;        (* Cofficient thrust[N] *)
  lcpt : double;      (* Drone arm length[m] *)
  Jcpt : double;      (* Drone moment of inertia *)
  Md : double;        (* Mass of drone *)
  End_time : double;  (* Time [s] *)
  volt : side -> double; (* the literals stored in motor[RIGHT].u, motor[LEFT].u *)
  hstep : double      (* the local [h] of drone_sim: step size *)
}.

Definition nominal_volt (k : side) : double :=
  match k with RIGHT => 7.5 | LEFT => 7.4 end.

Definition nominal : config := {|
  Lm := 3.7e-4;
  Rm := 1.2e-1;
  Km := 3.3e-3;
  Jm := 8.1e-6;
  Cq := 3.0e-8;
  Dm := 0.0;
  Ct := 3.5e-6;
  lcpt := 0.09;
  Jcpt := 6.0e-3;
  Md := 0.35;
  End_time := 0.5;
  volt := nominal_volt;
  hstep := 0.0001
|}.

(** [#define RADPS2RPM (60.0/2.0/3.14159)] *)
Definition RADPS2RPM : double := 60.0 / 2.0 / 3.14159.

(** ** State *)

(** [motor_t] *)
Record motor_t : Type := Motor {
  i : double;
  omega : double;
  u : double;
  i_ : double;
  omega_ : double;
  u_ : double
}.

(** [drone_t] *)
Record drone_t : Type := Drone {
  q : double;
  theta : double;
  q_ : double;
  theta_ : double
}.

(** Assignments to one field. *)
Definition set_i (m : motor_t) (v : double) : motor_t :=
  {| i := v; omega := omega m; u := u m;
     i_ := i_ m; omega_ := omega_ m; u_ := u_ m |}.
Definition set_omega (m : motor_t) (v : double) : motor_t :=
  {| i := i m; omega := v; u := u m;
     i_ := i_ m; omega_ := omega_ m; u_ := u_ m |}.
Definition set_u (m : motor_t) (v : double) : motor_t :=
  {| i := i m; omega := omega m; u := v;
     i_ := i_ m; omega_ := omega_ m; u_ := u_ m |}.
Definition set_i_ (m : motor_t) (v : double) : motor_t :=
  {| i := i m; omega := omega m; u := u m;
     i_ := v; omega_ := omega_ m; u_ := u_ m |}.
Definition set_omega_ (m : motor_t) (v : double) : motor_t :=
  {| i := i m; omega := omega m; u := u m;
     i_ := i_ m; omega_ := v; u_ := u_ m |}.
Definition set_u_ (m : motor_t) (v : double) : motor_t :=
  {| i := i m; omega := omega m; u := u m;
     i_ := i_ m; omega_ := omega_ m; u_ := v |}.

Definition set_q (d : drone_t) (v : double) : drone_t :=
  {| q := v; theta := theta d; q_ := q_ d; theta_ := theta_ d |}.
Definition set_theta (d : drone_t) (v : double) : drone_t :=
  {| q := q d; theta := v; q_ := q_ d; theta_ := theta_ d |}.
Definition set_q_ (d : drone_t) (v : double) : drone_t :=
  {| q := q d; theta := theta d; q_ := v; theta_ := theta_ d |}.
Definition set_theta_ (d : drone_t) (v : double) : drone_t :=
  {| q := q d; theta := theta d; q_ := q_ d; theta_ := v |}.

(** [motor_t motor[2]], indexed by [RIGHT] and [LEFT]. *)
Record motor_array : Type := Motors {
  motor_right : motor_t;
  motor_left : motor_t
}.

Definition at_ (motor : motor_array) (k : side) : motor_t :=
  match k with RIGHT => motor_right motor | LEFT => motor_left motor end.

Definition store (motor : motor_array) (k : side) (m : motor_t) : motor_array :=
  match k with
  | RIGHT => {| motor_right := m; motor_left := motor_left motor |}
  | LEFT => {| motor_right := motor_right motor; motor_left := m |}
  end.

(** The values of [for (char i=RIGHT; i<LEFT+1; i++)]. *)
Definition sides : list side := [RIGHT; LEFT].

(** ** Derivatives *)

(** [double *value]: the array is a list; [value[n]] reads its n-th cell.
    Reading past the end is undefined in C; the model reads [0] there, and no
    call of [drone_sim] does so. *)
Definition idx (value : list double) (n : nat) : double := nth n value 0.

Section Dynamics.

Variable c : config.

(** Equation of current: Lm di/dt + Rm i + Km omega = u *)
Definition i_dot (i t : double) (value : list double) : double :=
  let omega := idx value 0 in
  let u := idx value 1 in
  (u - Rm c * i - Km c * omega) / Lm c.

(** Motor equation of motion: Jm domega/dt + Dm omega + TL = Km i *)
Definition omega_dot (omega t : double) (value : list double) : double :=
  let i := idx value 0 in
  let TL := Cq c * omega * omega in
  (Km c * i - Dm c * omega - TL) / Jm c.

(** Jcpt dq/dt = (T_R - T_L) l *)
Definition q_dot (q t : double) (value : list double) : double :=
  let omega_R := idx value 0 in
  let omega_L := idx value 1 in
  let T_R := Ct c * omega_R * omega_R in
  let T_L := Ct c * omega_L * omega_L in
  (T_R - T_L) * lcpt c / Jcpt c.

(** dtheta/dt = q *)
Definition theta_dot (theta t : double) (value : list double) : double :=
  let q := idx value 0 in
  q.

End Dynamics.

(** ** Runge Kutta method *)

(** [rk4(dxdt, x, t, h, n, ...)]: the first [n] variadic arguments are copied
    into the array [value], which every stage receives. *)
Definition rk4 (dxdt : double -> double -> list double -> double)
    (x t h : double) (n : nat) (args : list double) : double :=
  let value := firstn n args in
  let k1 := h * dxdt x t value in
  let k2 := h * dxdt (x + 0.5 * h * k1) (t + 0.5 * h) value in
  let k3 := h * dxdt (x + 0.5 * h * k2) (t + 0.5 * h) value in
  let k4 := h * dxdt (x + h * k3) (t + h) value in
  x + (k1 + k2 * 2.0 + k3 * 2.0 + k4) / 6.

(** ** The simulation *)

(** Local variables of [drone_sim]. *)
Record sim : Type := Sim {
  motor : motor_array;
  drone : drone_t;
  t : double
}.

(** One turn of the loop of [save_state]. *)
Definition save_motor (motor : motor_array) (k : side) : motor_array :=
  let motor := store motor k (set_i_ (at_ motor k) (i (at_ motor k))) in
  let motor := store motor k (set_omega_ (at_ motor k) (omega (at_ motor k))) in
  let motor := store motor k (set_u_ (at_ motor k) (u (at_ motor k))) in
  motor.

Definition save_state (s : sim) : sim :=
  let motor := fold_left save_motor sides (motor s) in
  let drone := set_q_ (drone s) (q (drone s)) in
  let drone := set_theta_ drone (theta drone) in
  {| motor := motor; drone := drone; t := t s |}.

(** The record handed to [printf]: its seven numeric arguments.  The
    rendering of each by the format [%11.8f] is not part of the model. *)
Record row : Type := Row {
  row_t : double;
  row_i_R : double;
  row_i_L : double;
  row_rpm_R : double;
  row_rpm_L : double;
  row_q : double;
  row_theta : double
}.

Definition print_state (t : double) (motor : motor_array) (drone : drone_t)
    : row :=
  {| row_t := t;
     row_i_R := i (at_ motor RIGHT);
     row_i_L := i (at_ motor LEFT);
     row_rpm_R := omega (at_ motor RIGHT) * RADPS2RPM;
     row_rpm_L := omega (at_ motor LEFT) * RADPS2RPM;
     row_q := q drone;
     row_theta := theta drone |}.

(** [print_state(t, motor, drone)] on the locals of [drone_sim]. *)
Definition output (s : sim) : row := print_state (t s) (motor s) (drone s).

Section Simulation.

Variable c : config.

(** state init: eight fields and [t] are assigned; the snapshot fields of
    the uninitialised locals [motor0], [drone0] keep whatever they hold. *)
Definition init (motor0 : motor_array) (drone0 : drone_t) : sim :=
  let motor := store motor0 RIGHT (set_i (at_ motor0 RIGHT) 0.0) in
  let motor := store motor RIGHT (set_omega (at_ motor RIGHT) 0.0) in
  let motor := store motor RIGHT (set_u (at_ motor RIGHT) (volt c RIGHT)) in
  let motor := store motor LEFT (set_i (at_ motor LEFT) 0.0) in
  let motor := store motor LEFT (set_omega (at_ motor LEFT) 0.0) in
  let motor := store motor LEFT (set_u (at_ motor LEFT) (volt c LEFT)) in
  let drone := set_q drone0 0.0 in
  let drone := set_theta drone 0.0 in
  {| motor := motor; drone := drone; t := 0.0 |}.

(** One turn of the update loop over the motors. *)
Definition update_motor (t h : double) (motor : motor_array) (k : side)
    : motor_array :=
  let motor :=
    store motor k
      (set_i (at_ motor k)
         (rk4 (i_dot c) (i_ (at_ motor k)) t h 2
            [omega_ (at_ motor k); u_ (at_ motor k)])) in
  let motor :=
    store motor k
      (set_omega (at_ motor k)
         (rk4 (omega_dot c) (omega_ (at_ motor k)) t h 1
            [i_ (at_ motor k)])) in
  motor.

(** Update(Runge-Kutta method) and [t = t + h], after [save_state]. *)
Definition update (s : sim) : sim :=
  let h := hstep c in
  let motor := fold_left (update_motor (t s) h) sides (motor s) in
  let drone :=
    set_q (drone s)
      (rk4 (q_dot c) (q_ (drone s)) (t s) h 2
         [omega_ (at_ motor RIGHT); omega_ (at_ motor LEFT)]) in
  let drone :=
    set_theta drone
      (rk4 theta_dot (theta_ drone) (t s) h 1 [q_ drone]) in
  {| motor := motor; drone := drone; t := t s + h |}.

(** The body of the [while] loop, up to the output. *)
Definition body (s : sim) : sim := update (save_state s).

(** [while (t < End_time) { body; print_state }], in exact arithmetic.  The
    result is the list of records printed and whether the loop has exited;
    with [fuel] turns used up and the test still true it is the output so far
    and [false].  The turn at which the program itself exits is given by
    [time_loop]. *)
Fixpoint while_loop (fuel : nat) (s : sim) : list row * bool :=
  if Rlt_dec (t s) (End_time c) then
    match fuel with
    | O => ([], false)
    | S fuel' =>
        let s' := body s in
        let (out, done) := while_loop fuel' s' in
        (output s' :: out, done)
    end
  else ([], true).

Definition drone_sim (fuel : nat) (motor0 : motor_array) (drone0 : drone_t)
    : list row * bool :=
  let s := init motor0 drone0 in
  let (out, done) := while_loop fuel s in
  (output s :: out, done).

(** The locals after [n] turns of the loop. *)
Definition state_at (motor0 : motor_array) (drone0 : drone_t) (n : nat) : sim :=
  Nat.iter n body (init motor0 drone0).

End Simulation.

Definition emitted (r : list row * bool) : list row := fst r.
Definition finished (r : list row * bool) : bool := snd r.

(** ** The time variable on binary64 *)

(** [t] is written by [t = 0.0] and [t = t + h] only, and read by the loop
    test and by [print_state]; no derivative reads it.  The times printed and
    the number of turns are therefore fixed by [h] and [End_time] alone.
    [time_loop] is the loop [while (t < End_time) { ...; t = t + h;
    print_state(t, ...) }] reduced to this variable, on binary64 numbers with
    the comparison and the rounded addition of the machine; its result is the
    list of times printed and whether the loop has exited. *)
Fixpoint time_loop (fuel : nat) (h End_time t : float) : list float * bool :=
  if (t <? End_time)%float then
    match fuel with
    | O => ([], false)
    | S fuel' =>
        let t := (t + h)%float in
        let (out, done) := time_loop fuel' h End_time t in
        (t :: out, done)
    end
  else ([], true).

(** The first column of what [drone_sim] prints: [t = 0.0], the initial
    output, then the loop. *)
Definition time_column (fuel : nat) (h End_time : float) : list float * bool :=
  let t := 0.0%float in
  let (out, done) := time_loop fuel h End_time t in
  (t :: out, done).

(** [double h = 0.0001] and [const double End_time = 0.5], as the compiler
    reads the literals: the nearest binary64 numbers. *)
Definition nominal_h : float := 0.0001%float.
Definition nominal_End_time : float := 0.5%float.

(** Each number is below the next. *)
Fixpoint increasing (l : list float) : bool :=
  match l with
  | a :: (b :: _) as l' => (a <? b)%float && increasing l'
  | _ => true
  end.

(** The k-th number of the list, counted from [k0], is within [eps] of the
    rounded product k * h. *)
Fixpoint near_multiples (h eps k0 : float) (l : list float) : bool :=
  match l with
  | [] => true
  | a :: l' =>
      (abs (a - k0 * h) <? eps)%float && near_multiples h eps (k0 + 1)%float l'
  end.

(** ** The stepper and the validation as the specification words them *)

Module Spec.

(** The classical fourth-order stepper, each stage offset by half (or all)
    of the previous increment. *)
Definition rk4 (f : double -> double -> list double -> double)
    (x t h : double) (aux : list double) : double :=
  let k1 := h * f x t aux in
  let k2 := h * f (x + k1 / 2) (t + h / 2) aux in
  let k3 := h * f (x + k2 / 2) (t + h / 2) aux in
  let k4 := h * f (x + k3) (t + h) aux in
  x + (k1 + 2 * k2 + 2 * k3 + k4) / 6.

(** Step size, end time and the three divisors are positive. *)
Definition valid (c : config) : Prop :=
  0 < hstep c /\ 0 < End_time c /\ 0 < Lm c /\ 0 < Jm c /\ 0 < Jcpt c.

(** A run refused before it starts has printed no record. *)
Definition rejected (r : list row * bool) : Prop := emitted r = [].

(** The exact conversion from rad/s to revolutions per minute. *)
Definition rpm_factor : R := 60 / (2 * PI).

End Spec.

(** * Properties *)

(** ** Field access after an assignment *)

Lemma at_store_same (a : motor_array) (k : side) (m : motor_t) :
  at_ (store a k m) k = m.
Proof. destruct k; reflexivity. Qed.

Lemma at_store_other (a : motor_array) (k k' : side) (m : motor_t) :
  k <> k' -> at_ (store a k m) k' = at_ a k'.
Proof. destruct k, k'; intros H; try reflexivity; now elim H. Qed.

(** ** The derivatives *)

(** C2: the four derivative functions, on the auxiliary values the callers
    pass, are (u - R i - K omega)/L, (K i - D omega - Cq omega^2)/J,
    (Ct omegaR^2 - Ct omegaL^2) l / Jcpt and q. *)
Theorem derivatives_compute (c : config) (x t omega_m u_m i_m omega_R omega_L q_d : double) :
  i_dot c x t [omega_m; u_m] = (u_m - Rm c * x - Km c * omega_m) / Lm c /\
  omega_dot c x t [i_m] = (Km c * i_m - Dm c * x - Cq c * x ^ 2) / Jm c /\
  q_dot c x t [omega_R; omega_L] =
    (Ct c * omega_R ^ 2 - Ct c * omega_L ^ 2) * lcpt c / Jcpt c /\
  theta_dot x t [q_d] = q_d.
Proof.
  unfold i_dot, omega_dot, q_dot, theta_dot, idx; cbn [nth].
  repeat split.
  - f_equal. ring.
  - f_equal. ring.
Qed.

(** ** The stepper *)

(** What the body of [rk4] computes, with the array made explicit. *)
Lemma rk4_unfold f x t h n args :
  rk4 f x t h n args =
    let value := firstn n args in
    let k1 := h * f x t value in
    let k2 := h * f (x + h * k1 / 2) (t + h / 2) value in
    let k3 := h * f (x + h * k2 / 2) (t + h / 2) value in
    let k4 := h * f (x + h * k3) (t + h) value in
    x + (k1 + 2 * k2 + 2 * k3 + k4) / 6.
Proof.
  unfold rk4; cbv zeta.
  replace (0.5 * h) with (h / 2) by lra.
  set (v := firstn n args).
  replace (x + h / 2 * (h * f x t v)) with (x + h * (h * f x t v) / 2) by lra.
  set (k1 := h * f x t v).
  set (k2 := h * f (x + h * k1 / 2) (t + h / 2) v).
  replace (x + h / 2 * k2) with (x + h * k2 / 2) by lra.
  lra.
Qed.

(** A derivative that ignores its state and time makes the four stages equal,
    and the step is an Euler step. *)
Lemma rk4_flat f x t h n args :
  (forall x1 t1 x2 t2 v, f x1 t1 v = f x2 t2 v) ->
  rk4 f x t h n args = x + h * f x t (firstn n args).
Proof.
  intros Hf. unfold rk4; cbv zeta.
  set (v := firstn n args).
  rewrite (Hf (x + 0.5 * h * (h * f x t v)) (t + 0.5 * h) x t v).
  rewrite (Hf (x + 0.5 * h * (h * f x t v)) (t + 0.5 * h) x t v).
  rewrite (Hf (x + h * (h * f x t v)) (t + h) x t v).
  lra.
Qed.

(** With a unit step the doubled factor [h] does not show. *)
Lemma rk4_unit_step f x t n args :
  rk4 f x t 1 n args = Spec.rk4 f x t 1 (firstn n args).
Proof.
  rewrite rk4_unfold. unfold Spec.rk4; cbv zeta.
  rewrite !Rmult_1_l. reflexivity.
Qed.

(** ** One turn of the loop *)

Ltac open_state s :=
  let mr := fresh "mr" in
  let ml := fresh "ml" in
  let d := fresh "d" in
  let t0 := fresh "t0" in
  destruct s as [[mr ml] d t0]; destruct mr, ml, d.

(** [save_state] copies the three fields of each motor and the two of the
    drone into their snapshot fields and changes nothing else. *)
Lemma save_state_motor (s : sim) (k : side) :
  let m := at_ (motor s) k in
  at_ (motor (save_state s)) k =
    {| i := i m; omega := omega m; u := u m;
       i_ := i m; omega_ := omega m; u_ := u m |}.
Proof. open_state s; destruct k; reflexivity. Qed.

Lemma save_state_drone (s : sim) :
  drone (save_state s) =
    {| q := q (drone s); theta := theta (drone s);
       q_ := q (drone s); theta_ := theta (drone s) |}.
Proof. open_state s; reflexivity. Qed.

Lemma save_state_t (s : sim) : t (save_state s) = t s.
Proof. reflexivity. Qed.

(** [update] writes [i] and [omega] of each motor from the snapshot fields the
    motor had when [update] began. *)
Lemma update_motor_at (c : config) (s : sim) (k : side) :
  let m := at_ (motor s) k in
  at_ (motor (update c s)) k =
    {| i := rk4 (i_dot c) (i_ m) (t s) (hstep c) 2 [omega_ m; u_ m];
       omega := rk4 (omega_dot c) (omega_ m) (t s) (hstep c) 1 [i_ m];
       u := u m;
       i_ := i_ m; omega_ := omega_ m; u_ := u_ m |}.
Proof. open_state s; destruct k; reflexivity. Qed.

Lemma update_drone (c : config) (s : sim) :
  let d := drone s in
  drone (update c s) =
    {| q := rk4 (q_dot c) (q_ d) (t s) (hstep c) 2
              [omega_ (at_ (motor s) RIGHT); omega_ (at_ (motor s) LEFT)];
       theta := rk4 theta_dot (theta_ d) (t s) (hstep c) 1 [q_ d];
       q_ := q_ d; theta_ := theta_ d |}.
Proof. open_state s; reflexivity. Qed.

Lemma update_t (c : config) (s : sim) : t (update c s) = t s + hstep c.
Proof. reflexivity. Qed.

(** The whole turn, in terms of the locals at its start. *)
Lemma body_motor (c : config) (s : sim) (k : side) :
  let m := at_ (motor s) k in
  at_ (motor (body c s)) k =
    {| i := rk4 (i_dot c) (i m) (t s) (hstep c) 2 [omega m; u m];
       omega := rk4 (omega_dot c) (omega m) (t s) (hstep c) 1 [i m];
       u := u m;
       i_ := i m; omega_ := omega m; u_ := u m |}.
Proof.
  cbv zeta. unfold body.
  rewrite update_motor_at; cbv zeta.
  rewrite save_state_motor, save_state_t. reflexivity.
Qed.

Lemma body_drone (c : config) (s : sim) :
  let d := drone s in
  drone (body c s) =
    {| q := rk4 (q_dot c) (q d) (t s) (hstep c) 2
              [omega (at_ (motor s) RIGHT); omega (at_ (motor s) LEFT)];
       theta := rk4 theta_dot (theta d) (t s) (hstep c) 1 [q d];
       q_ := q d; theta_ := theta d |}.
Proof.
  cbv zeta. unfold body.
  rewrite update_drone; cbv zeta.
  rewrite save_state_drone, !save_state_motor, save_state_t. reflexivity.
Qed.

Lemma body_t (c : config) (s : sim) : t (body c s) = t s + hstep c.
Proof. reflexivity. Qed.

(** C3: in every turn of the loop the six calls of [rk4] start from, and take
    their auxiliary values from, the snapshot fields, and these hold the
    values the locals had when the turn began; no call reads a value written
    earlier in the same turn.  Stated for [update] on any locals (whatever the
    current fields are) and for the whole turn [body]. *)
Theorem snapshot_discipline (c : config) (s : sim) :
  let h := hstep c in
  (forall k : side,
     let m := at_ (motor s) k in
     i (at_ (motor (update c s)) k) =
       rk4 (i_dot c) (i_ m) (t s) h 2 [omega_ m; u_ m] /\
     omega (at_ (motor (update c s)) k) =
       rk4 (omega_dot c) (omega_ m) (t s) h 1 [i_ m]) /\
  q (drone (update c s)) =
    rk4 (q_dot c) (q_ (drone s)) (t s) h 2
      [omega_ (at_ (motor s) RIGHT); omega_ (at_ (motor s) LEFT)] /\
  theta (drone (update c s)) =
    rk4 theta_dot (theta_ (drone s)) (t s) h 1 [q_ (drone s)] /\
  (forall k : side,
     let m := at_ (motor s) k in
     let m' := at_ (motor (save_state s)) k in
     i_ m' = i m /\ omega_ m' = omega m /\ u_ m' = u m) /\
  q_ (drone (save_state s)) = q (drone s) /\
  theta_ (drone (save_state s)) = theta (drone s) /\
  (forall k : side,
     let m := at_ (motor s) k in
     i (at_ (motor (body c s)) k) =
       rk4 (i_dot c) (i m) (t s) h 2 [omega m; u m] /\
     omega (at_ (motor (body c s)) k) =
       rk4 (omega_dot c) (omega m) (t s) h 1 [i m]) /\
  q (drone (body c s)) =
    rk4 (q_dot c) (q (drone s)) (t s) h 2
      [omega (at_ (motor s) RIGHT); omega (at_ (motor s) LEFT)] /\
  theta (drone (body c s)) =
    rk4 theta_dot (theta (drone s)) (t s) h 1 [q (drone s)].
Proof.
  cbv zeta.
  split; [intros k; rewrite update_motor_at; split; reflexivity|].
  split; [rewrite update_drone; reflexivity|].
  split; [rewrite update_drone; reflexivity|].
  split; [intros k; rewrite save_state_motor; repeat split|].
  split; [rewrite save_state_drone; reflexivity|].
  split; [rewrite save_state_drone; reflexivity|].
  split; [intros k; rewrite body_motor; split; reflexivity|].
  split; rewrite body_drone; reflexivity.
Qed.

(** C10: [q_dot] and [theta_dot] ignore their state and time arguments, so the
    four stages coincide and each turn advances the drone by one Euler step:
    q' = q + h (Ct omegaR^2 - Ct omegaL^2) l / Jcpt and theta' = theta + h q. *)
Theorem drone_step_is_euler (c : config) (s : sim) :
  let h := hstep c in
  let omegaR := omega (at_ (motor s) RIGHT) in
  let omegaL := omega (at_ (motor s) LEFT) in
  q (drone (body c s)) =
    q (drone s) +
    h * (Ct c * omegaR ^ 2 - Ct c * omegaL ^ 2) * lcpt c / Jcpt c /\
  theta (drone (body c s)) = theta (drone s) + h * q (drone s).
Proof.
  cbv zeta. rewrite body_drone; cbv zeta. cbn [q theta].
  split.
  - rewrite rk4_flat by reflexivity.
    unfold q_dot, idx; cbn [firstn nth]. unfold Rdiv. ring.
  - rewrite rk4_flat by reflexivity.
    unfold theta_dot, idx; cbn [firstn nth]. reflexivity.
Qed.

(** ** The loop *)

Lemma iter_body_shift (c : config) (n : nat) (s : sim) :
  Nat.iter n (body c) (body c s) = Nat.iter (S n) (body c) s.
Proof. symmetry. apply Nat.iter_succ_r. Qed.

Lemma iter_body_t (c : config) (n : nat) (s : sim) :
  t (Nat.iter n (body c) s) = t s + INR n * hstep c.
Proof.
  induction n as [|n IH].
  - cbn. lra.
  - rewrite S_INR, Nat.iter_succ, body_t, IH. lra.
Qed.

Lemma init_t (c : config) (motor0 : motor_array) (drone0 : drone_t) :
  t (init c motor0 drone0) = 0.
Proof. cbn. lra. Qed.

Lemma state_at_t (c : config) motor0 drone0 (n : nat) :
  t (state_at c motor0 drone0 n) = INR n * hstep c.
Proof. unfold state_at. rewrite iter_body_t, init_t. lra. Qed.

(** The records printed by the loop started on [s]: after the n-th turn. *)
Definition outputs (c : config) (s : sim) (n : nat) : list row :=
  map (fun k => output (Nat.iter k (body c) s)) (seq 1 n).

Lemma outputs_succ (c : config) (s : sim) (n : nat) :
  outputs c s (S n) = output (body c s) :: outputs c (body c s) n.
Proof.
  unfold outputs. cbn [seq map]. f_equal.
  rewrite <- seq_shift, map_map.
  apply map_ext. intros k. now rewrite iter_body_shift.
Qed.

(** While the test holds on the first [fuel] states, the loop is still
    running when the fuel is spent. *)
Lemma while_loop_running (c : config) (fuel : nat) :
  forall s : sim,
    (forall k, (k <= fuel)%nat -> t (Nat.iter k (body c) s) < End_time c) ->
    while_loop c fuel s = (outputs c s fuel, false).
Proof.
  induction fuel as [|fuel IH]; intros s Hlt; cbn [while_loop].
  - destruct (Rlt_dec (t s) (End_time c)) as [_|Hn]; [reflexivity|].
    elim Hn. apply (Hlt 0%nat). lia.
  - destruct (Rlt_dec (t s) (End_time c)) as [_|Hn].
    + rewrite IH, outputs_succ; [reflexivity|].
      intros k Hk. rewrite iter_body_shift. apply Hlt. lia.
    + elim Hn. apply (Hlt 0%nat). lia.
Qed.

(** The loop exits at the first state whose time reaches [End_time], and
    prints nothing after it. *)
Lemma while_loop_exits (c : config) (n : nat) :
  forall (fuel : nat) (s : sim),
    (forall k, (k < n)%nat -> t (Nat.iter k (body c) s) < End_time c) ->
    End_time c <= t (Nat.iter n (body c) s) ->
    (n <= fuel)%nat ->
    while_loop c fuel s = (outputs c s n, true).
Proof.
  induction n as [|n IH]; intros fuel s Hlt Hge Hfuel.
  - change (Nat.iter 0 (body c) s) with s in Hge.
    destruct fuel; cbn [while_loop];
      (destruct (Rlt_dec (t s) (End_time c)); [lra|reflexivity]).
  - destruct fuel as [|fuel]; [lia|]. cbn [while_loop].
    destruct (Rlt_dec (t s) (End_time c)) as [_|Hn].
    + rewrite (IH fuel (body c s)), outputs_succ; [reflexivity| | |lia].
      * intros k Hk. rewrite iter_body_shift. apply Hlt. lia.
      * now rewrite iter_body_shift.
    + elim Hn. apply (Hlt 0%nat). lia.
Qed.

(** Whatever the fuel, what has been printed is a prefix of the states. *)
Lemma while_loop_prefix (c : config) (fuel : nat) :
  forall s : sim,
    exists n, (n <= fuel)%nat /\ emitted (while_loop c fuel s) = outputs c s n.
Proof.
  induction fuel as [|fuel IH]; intros s; cbn [while_loop].
  - exists 0%nat. split; [lia|]. now destruct (Rlt_dec (t s) (End_time c)).
  - destruct (Rlt_dec (t s) (End_time c)) as [_|_].
    + destruct (IH (body c s)) as (n & Hn & E).
      exists (S n). split; [lia|].
      rewrite outputs_succ.
      destruct (while_loop c fuel (body c s)) as [out b].
      unfold emitted in *; cbn [fst] in *. now rewrite E.
    + exists 0%nat. split; [lia|reflexivity].
Qed.

Lemma drone_sim_prefix (c : config) (fuel : nat) motor0 drone0 :
  exists n, (n <= fuel)%nat /\
    emitted (drone_sim c fuel motor0 drone0) =
      map (fun k => output (state_at c motor0 drone0 k)) (seq 0 (S n)).
Proof.
  unfold drone_sim.
  destruct (while_loop_prefix c fuel (init c motor0 drone0)) as (n & Hn & E).
  exists n. split; [exact Hn|].
  destruct (while_loop c fuel (init c motor0 drone0)) as [out b].
  unfold emitted in *; cbn [fst] in *. rewrite E. reflexivity.
Qed.

(** In exact arithmetic the loop is still running after fewer turns than
    the least [n] with [End_time <= n * h]. *)
Definition turns (c : config) : nat := Z.to_nat (Zceil (End_time c / hstep c)).

Lemma turns_least (c : config) (k : nat) :
  0 < hstep c -> (k < turns c)%nat -> INR k * hstep c < End_time c.
Proof.
  intros Hh Hk. unfold turns in Hk.
  pose proof (Zceil_bound (End_time c / hstep c)) as [Hlb _].
  assert (Hz : INR k <= IZR (Zceil (End_time c / hstep c)) - 1).
  { rewrite INR_IZR_INZ, <- minus_IZR. apply IZR_le. lia. }
  apply Rlt_le_trans with (End_time c / hstep c * hstep c).
  - apply Rmult_lt_compat_r; lra.
  - right. field. lra.
Qed.

Lemma drone_sim_running (c : config) (fuel : nat) motor0 drone0 :
  0 < hstep c -> (fuel < turns c)%nat ->
  drone_sim c fuel motor0 drone0 =
    (map (fun k => output (state_at c motor0 drone0 k)) (seq 0 (S fuel)),
     false).
Proof.
  intros Hh Hfuel. unfold drone_sim.
  rewrite while_loop_running; [reflexivity|].
  intros k Hk. rewrite iter_body_t, init_t, Rplus_0_l.
  apply turns_least; [exact Hh|lia].
Qed.

Lemma nominal_turns : turns nominal = 5000%nat.
Proof.
  unfold turns.
  rewrite (Zceil_eq 5000); [reflexivity|].
  cbn [End_time hstep nominal]. lra.
Qed.

(** Uninitialised locals holding zeroes, for the concrete runs below. *)
Definition blank_motor : motor_t :=
  {| i := 0; omega := 0; u := 0; i_ := 0; omega_ := 0; u_ := 0 |}.
Definition blank_motors : motor_array :=
  {| motor_right := blank_motor; motor_left := blank_motor |}.
Definition blank_drone : drone_t :=
  {| q := 0; theta := 0; q_ := 0; theta_ := 0 |}.

(** ** The times printed, on binary64 *)

Section TimeColumn.

Local Open Scope float_scope.

Variables h End_time : float.

(** Consecutive times: each was below [End_time] when the loop was entered
    again, and the next is its rounded sum with [h]. *)
Fixpoint stepwise (t : float) (l : list float) : Prop :=
  match l with
  | [] => True
  | t' :: l' => (t <? End_time) = true /\ t' = t + h /\ stepwise t' l'
  end.

Lemma time_loop_stepwise (fuel : nat) :
  forall t : float, stepwise t (fst (time_loop fuel h End_time t)).
Proof.
  induction fuel as [|fuel IH]; intros t; cbn [time_loop].
  - destruct (t <? End_time); exact I.
  - destruct (t <? End_time) eqn:Hlt; [|exact I].
    specialize (IH (t + h)).
    destruct (time_loop fuel h End_time (t + h)) as [out done].
    cbn [fst stepwise] in *. auto.
Qed.

Lemma stepwise_nth (l : list float) :
  forall (t : float) (k : nat) (a b : float),
    stepwise t l ->
    nth_error (t :: l) k = Some a -> nth_error (t :: l) (S k) = Some b ->
    (a <? End_time) = true /\ b = a + h.
Proof.
  induction l as [|t' l IH]; intros t k a b Hs Ha Hb.
  - destruct k; cbn in Hb; [discriminate|]. destruct k; discriminate.
  - destruct Hs as (Hlt & Ht' & Hs).
    destruct k as [|k].
    + cbn in Ha, Hb. injection Ha as <-. injection Hb as <-. now split.
    + apply (IH t' k a b Hs); assumption.
Qed.

Lemma time_loop_exit (fuel : nat) :
  forall t : float,
    snd (time_loop fuel h End_time t) = true ->
    (last (t :: fst (time_loop fuel h End_time t)) 0 <? End_time) = false.
Proof.
  induction fuel as [|fuel IH]; intros t; cbn [time_loop].
  - destruct (t <? End_time) eqn:Hlt; cbn [fst snd last];
      [discriminate|intros _; exact Hlt].
  - destruct (t <? End_time) eqn:Hlt; [|cbn [fst snd last]; intros _; exact Hlt].
    specialize (IH (t + h)).
    destruct (time_loop fuel h End_time (t + h)) as [out done].
    cbn [fst snd] in *. intros Hd. exact (IH Hd).
Qed.

Lemma time_loop_running (fuel : nat) :
  forall t : float,
    snd (time_loop fuel h End_time t) = false ->
    length (fst (time_loop fuel h End_time t)) = fuel /\
    (last (t :: fst (time_loop fuel h End_time t)) 0 <? End_time) = true.
Proof.
  induction fuel as [|fuel IH]; intros t; cbn [time_loop].
  - destruct (t <? End_time) eqn:Hlt; cbn [fst snd last length];
      [intros _; now split|discriminate].
  - destruct (t <? End_time) eqn:Hlt; [|cbn [snd]; discriminate].
    specialize (IH (t + h)).
    destruct (time_loop fuel h End_time (t + h)) as [out done].
    cbn [fst snd length] in *. intros Hd. destruct (IH Hd) as (Hl & Hlast).
    split; [now rewrite Hl|exact Hlast].
Qed.

Lemma time_loop_more_fuel (fuel : nat) :
  forall (t : float) (fuel' : nat),
    snd (time_loop fuel h End_time t) = true -> (fuel <= fuel')%nat ->
    time_loop fuel' h End_time t = time_loop fuel h End_time t.
Proof.
  induction fuel as [|fuel IH]; intros t fuel' Hd Hle.
  - cbn [time_loop] in *.
    destruct fuel'; cbn [time_loop];
      (destruct (t <? End_time); [discriminate Hd|reflexivity]).
  - destruct fuel' as [|fuel']; [lia|].
    cbn [time_loop] in *.
    destruct (t <? End_time); [|reflexivity].
    specialize (IH (t + h) fuel').
    destruct (time_loop fuel h End_time (t + h)) as [out done].
    cbn [snd] in *. rewrite IH; [reflexivity|exact Hd|lia].
Qed.

End TimeColumn.

Lemma nominal_time_column :
  let n := time_column 5001 nominal_h nominal_End_time in
  snd n = true /\
  length (fst n) = 5002%nat /\
  snd (time_column 5000 nominal_h nominal_End_time) = false /\
  nth 5000 (fst n) 0%float = 0.49999999999996125%float /\
  last (fst n) 0%float = 0.50009999999996124%float /\
  increasing (fst n) = true /\
  near_multiples nominal_h 1e-13%float 0%float (fst n) = true.
Proof. vm_compute. repeat split. Qed.

Lemma float_differ (x y : float) :
  (x =? y)%float = false -> (y =? y)%float = true -> x <> y.
Proof. intros Hxy Hyy E. rewrite E, Hyy in Hxy. discriminate Hxy. Qed.

(** C4 fails on binary64: the times printed are not the multiples of h and do
    not differ by h.  With the constants of the source the record printed
    after 5000 turns has the time 0.49999999999996125 and not 5000 * h = 0.5,
    so the loop goes on, and the third and fourth times differ by
    0.00010000000000000002. *)
Lemma times_counterexample :
  let ts := fst (time_column 5001 nominal_h nominal_End_time) in
  nth 5000 ts 0%float <> (5000 * nominal_h)%float /\
  (nth 3 ts 0 - nth 2 ts 0)%float <> nominal_h.
Proof.
  cbv zeta. split; apply float_differ; vm_compute; reflexivity.
Qed.

(** C4 as the program has it.  The first time printed is 0 and each later
    one is the rounded sum of the one before and h, printed in a turn that
    was entered because the time before was below End_time; while the loop
    has not exited every turn has printed one time and the last one is below
    End_time; once it has exited the last time printed is the first that is
    not below End_time, and nothing is printed after it.  With the constants
    of the source (h = 1e-4, End_time = 0.5) the loop exits after 5001 turns,
    not 5000: the 5002 times are increasing, each within 1e-13 of a multiple
    of h, the one before the last is 0.49999999999996125 and the last is
    0.50009999999996124. *)
Theorem time_column_steps (h End_time : float) (fuel : nat) :
  let r := time_column fuel h End_time in
  let ts := fst r in
  hd_error ts = Some 0%float /\
  (forall (k : nat) (a b : float),
     nth_error ts k = Some a -> nth_error ts (S k) = Some b ->
     (a <? End_time)%float = true /\ b = (a + h)%float) /\
  (snd r = false ->
     length ts = S fuel /\ (last ts 0 <? End_time)%float = true) /\
  (snd r = true ->
     (last ts 0 <? End_time)%float = false /\
     forall fuel' : nat,
       (fuel <= fuel')%nat -> time_column fuel' h End_time = r) /\
  let n := time_column 5001 nominal_h nominal_End_time in
  snd n = true /\
  length (fst n) = 5002%nat /\
  snd (time_column 5000 nominal_h nominal_End_time) = false /\
  nth 5000 (fst n) 0%float = 0.49999999999996125%float /\
  last (fst n) 0%float = 0.50009999999996124%float /\
  increasing (fst n) = true /\
  near_multiples nominal_h 1e-13%float 0%float (fst n) = true.
Proof.
  cbv zeta. unfold time_column.
  pose proof (time_loop_stepwise h End_time fuel 0%float) as Hs.
  pose proof (time_loop_exit h End_time fuel 0%float) as He.
  pose proof (time_loop_running h End_time fuel 0%float) as Hr.
  pose proof (time_loop_more_fuel h End_time fuel 0%float) as Hm.
  destruct (time_loop fuel h End_time 0%float) as [out done].
  cbn [fst snd] in *.
  split; [reflexivity|].
  split; [intros k a b; now apply stepwise_nth|].
  split.
  { intros Hd. destruct (Hr Hd) as (Hl & Hlast).
    split; [cbn [length]; now rewrite Hl|exact Hlast]. }
  split.
  { intros Hd. split; [exact (He Hd)|].
    intros fuel' Hle. now rewrite (Hm fuel' Hd Hle). }
  exact nominal_time_column.
Qed.

(** ** Initial state *)

Lemma init_motor (c : config) motor0 drone0 (k : side) :
  let m := at_ (motor (init c motor0 drone0)) k in
  i m = 0 /\ omega m = 0 /\ u m = volt c k.
Proof.
  destruct motor0 as [mr ml]; destruct mr, ml, k; cbn; repeat split; lra.
Qed.

Lemma init_drone (c : config) motor0 drone0 :
  let d := drone (init c motor0 drone0) in
  q d = 0 /\ theta d = 0.
Proof. destruct drone0; cbn; split; lra. Qed.

Lemma state_at_succ (c : config) motor0 drone0 (n : nat) :
  state_at c motor0 drone0 (S n) = body c (state_at c motor0 drone0 n).
Proof. unfold state_at. apply Nat.iter_succ. Qed.

Lemma drone_sim_head (c : config) (fuel : nat) motor0 drone0 :
  hd_error (emitted (drone_sim c fuel motor0 drone0)) =
    Some (output (init c motor0 drone0)).
Proof.
  unfold drone_sim.
  destruct (while_loop c fuel (init c motor0 drone0)) as [out b].
  reflexivity.
Qed.

(** C5: initialisation sets current and angular velocity of both motors to
    zero, each voltage to its configured constant (7.5 V right and 7.4 V left
    in the source), q, theta and the time to zero, and the initial state is
    the first record printed, before any turn of the loop. *)
Theorem initial_state (c : config) (fuel : nat) (motor0 : motor_array)
    (drone0 : drone_t) :
  let s := init c motor0 drone0 in
  (forall k : side,
     i (at_ (motor s) k) = 0 /\ omega (at_ (motor s) k) = 0 /\
     u (at_ (motor s) k) = volt c k) /\
  volt nominal RIGHT = 7.5 /\ volt nominal LEFT = 7.4 /\
  q (drone s) = 0 /\ theta (drone s) = 0 /\ t s = 0 /\
  hd_error (emitted (drone_sim c fuel motor0 drone0)) = Some (output s) /\
  emitted (drone_sim c 0 motor0 drone0) = [output s] /\
  output s = {| row_t := 0; row_i_R := 0; row_i_L := 0; row_rpm_R := 0;
                row_rpm_L := 0; row_q := 0; row_theta := 0 |}.
Proof.
  cbv zeta.
  split; [intros k; apply init_motor|].
  split; [reflexivity|]. split; [reflexivity|].
  split; [apply init_drone|]. split; [apply init_drone|].
  split; [apply init_t|].
  split; [apply drone_sim_head|].
  split.
  - unfold drone_sim; cbn [while_loop].
    now destruct (Rlt_dec (t (init c motor0 drone0)) (End_time c)).
  - unfold output, print_state.
    destruct (init_motor c motor0 drone0 RIGHT) as (-> & -> & _).
    destruct (init_motor c motor0 drone0 LEFT) as (-> & -> & _).
    destruct (init_drone c motor0 drone0) as (-> & ->).
    rewrite init_t, Rmult_0_l. reflexivity.
Qed.

(** ** Voltages *)

Lemma body_u (c : config) (s : sim) (k : side) :
  u (at_ (motor (body c s)) k) = u (at_ (motor s) k).
Proof. now rewrite body_motor. Qed.

Lemma state_at_u (c : config) motor0 drone0 (n : nat) (k : side) :
  u (at_ (motor (state_at c motor0 drone0 n)) k) = volt c k.
Proof.
  induction n as [|n IH].
  - apply init_motor.
  - now rewrite state_at_succ, body_u.
Qed.

(** C9: no turn of the loop changes a motor's applied voltage: after any
    number of turns it is the value assigned at initialisation, and so is the
    snapshot [u_] taken at the start of each turn and used through it. *)
Theorem voltage_constant (c : config) (motor0 : motor_array)
    (drone0 : drone_t) (n : nat) (k : side) :
  let s := state_at c motor0 drone0 n in
  u (at_ (motor s) k) = volt c k /\
  u (at_ (motor (body c s)) k) = u (at_ (motor s) k) /\
  u_ (at_ (motor (save_state s)) k) = volt c k /\
  u (at_ (motor (save_state s)) k) = volt c k /\
  u_ (at_ (motor (body c s)) k) = volt c k /\
  (forall s0 : sim,
     u (at_ (motor (save_state s0)) k) = u (at_ (motor s0) k) /\
     u (at_ (motor (update c s0)) k) = u (at_ (motor s0) k)).
Proof.
  cbv zeta.
  split; [apply state_at_u|].
  split; [apply body_u|].
  split; [rewrite save_state_motor; apply state_at_u|].
  split; [rewrite save_state_motor; apply state_at_u|].
  split; [rewrite body_motor; apply state_at_u|].
  intros s0. rewrite save_state_motor, update_motor_at. split; reflexivity.
Qed.

(** ** Symmetry *)

Definition balanced (s : sim) : Prop :=
  i (at_ (motor s) RIGHT) = i (at_ (motor s) LEFT) /\
  omega (at_ (motor s) RIGHT) = omega (at_ (motor s) LEFT) /\
  u (at_ (motor s) RIGHT) = u (at_ (motor s) LEFT) /\
  q (drone s) = 0.

Lemma balanced_body (c : config) (s : sim) :
  balanced s -> balanced (body c s).
Proof.
  intros (Hi & Ho & Hu & Hq). unfold balanced.
  rewrite !body_motor, body_drone; cbv zeta. cbn [i omega u q].
  rewrite Hi, Ho, Hu, Hq.
  repeat split.
  rewrite rk4_flat by reflexivity.
  unfold q_dot, idx; cbn [firstn nth]. unfold Rdiv. ring.
Qed.

Lemma balanced_state_at (c : config) motor0 drone0 (n : nat) :
  volt c RIGHT = volt c LEFT -> balanced (state_at c motor0 drone0 n).
Proof.
  intros Hv. induction n as [|n IH].
  - change (state_at c motor0 drone0 0) with (init c motor0 drone0).
    unfold balanced.
    destruct (init_motor c motor0 drone0 RIGHT) as (-> & -> & ->).
    destruct (init_motor c motor0 drone0 LEFT) as (-> & -> & ->).
    destruct (init_drone c motor0 drone0) as (-> & _).
    now rewrite Hv.
  - rewrite state_at_succ. now apply balanced_body.
Qed.

(** C7: when both motors get the same voltage (their parameters are shared
    constants), then after every turn the two motors have equal current,
    angular velocity and voltage and the drone rate q is exactly 0; so every
    record printed shows q = 0 and equal columns for the two motors. *)
Theorem symmetric_run (c : config) (motor0 : motor_array) (drone0 : drone_t) :
  volt c RIGHT = volt c LEFT ->
  (forall n : nat,
     let s := state_at c motor0 drone0 n in
     q (drone s) = 0 /\
     i (at_ (motor s) RIGHT) = i (at_ (motor s) LEFT) /\
     omega (at_ (motor s) RIGHT) = omega (at_ (motor s) LEFT) /\
     u (at_ (motor s) RIGHT) = u (at_ (motor s) LEFT)) /\
  (forall (fuel : nat) (r : row),
     In r (emitted (drone_sim c fuel motor0 drone0)) ->
     row_q r = 0 /\ row_i_R r = row_i_L r /\ row_rpm_R r = row_rpm_L r).
Proof.
  intros Hv. split.
  - intros n; cbv zeta.
    destruct (balanced_state_at c motor0 drone0 n Hv) as (Hi & Ho & Hu & Hq).
    auto.
  - intros fuel r Hin.
    destruct (drone_sim_prefix c fuel motor0 drone0) as (n & _ & E).
    rewrite E in Hin. apply in_map_iff in Hin. destruct Hin as (k & <- & _).
    destruct (balanced_state_at c motor0 drone0 k Hv) as (Hi & Ho & _ & Hq).
    unfold output, print_state; cbn [row_q row_i_R row_i_L row_rpm_R row_rpm_L].
    now rewrite Hi, Ho, Hq.
Qed.

(** The nominal constants with 7.5 V on both motors. *)
Definition even_volt : config := {|
  Lm := Lm nominal; Rm := Rm nominal; Km := Km nominal; Jm := Jm nominal;
  Cq := Cq nominal; Dm := Dm nominal; Ct := Ct nominal;
  lcpt := lcpt nominal; Jcpt := Jcpt nominal; Md := Md nominal;
  End_time := End_time nominal;
  volt := fun _ => 7.5;
  hstep := hstep nominal
|}.

Lemma symmetric_run_witness :
  volt even_volt RIGHT = volt even_volt LEFT /\
  q (drone (state_at even_volt blank_motors blank_drone 2)) = 0.
Proof.
  split; [reflexivity|].
  apply (symmetric_run even_volt blank_motors blank_drone eq_refl).
Defined.

(** ** The first call of the stepper *)

Lemma first_current (motor0 : motor_array) (drone0 : drone_t) (k : side) :
  i (at_ (motor (state_at nominal motor0 drone0 1)) k) =
    rk4 (i_dot nominal) 0 0 0.0001 2 [0; volt nominal k].
Proof.
  rewrite state_at_succ, body_motor; cbv zeta. cbn [i].
  change (state_at nominal motor0 drone0 0) with (init nominal motor0 drone0).
  destruct (init_motor nominal motor0 drone0 k) as (-> & -> & ->).
  rewrite init_t. reflexivity.
Qed.

Lemma rk4_first_value :
  rk4 (i_dot nominal) 0 0 0.0001 2 [0; 7.5] =
    18994844197533299973 / 9370805000000000000.
Proof.
  unfold rk4, i_dot, idx; cbn [firstn nth Lm Rm Km nominal]. lra.
Qed.

Lemma classical_first_value :
  Spec.rk4 (i_dot nominal) 0 0 0.0001 [0; 7.5] = 18690153 / 9370805.
Proof.
  unfold Spec.rk4, i_dot, idx; cbn [nth Lm Rm Km nominal]. lra.
Qed.

(** C1, at the first call the program makes: [rk4(i_dot, 0, 0, 0.0001, 2, 0,
    7.5)], the right motor's current in the first turn.  The body of [rk4]
    multiplies the increments k1, k2, k3, which already carry the factor h,
    by h once more when it offsets the next stage, so its value,
    2.02702373..., is not the 1.99450879... of the classical stepper. *)
Theorem rk4_first_call_departs :
  (forall (motor0 : motor_array) (drone0 : drone_t),
     i (at_ (motor (state_at nominal motor0 drone0 1)) RIGHT) =
       rk4 (i_dot nominal) 0 0 0.0001 2 [0; 7.5]) /\
  rk4 (i_dot nominal) 0 0 0.0001 2 [0; 7.5] =
    18994844197533299973 / 9370805000000000000 /\
  Spec.rk4 (i_dot nominal) 0 0 0.0001 [0; 7.5] = 18690153 / 9370805 /\
  rk4 (i_dot nominal) 0 0 0.0001 2 [0; 7.5] <>
    Spec.rk4 (i_dot nominal) 0 0 0.0001 (firstn 2 [0; 7.5]).
Proof.
  split; [intros motor0 drone0; apply (first_current motor0 drone0 RIGHT)|].
  split; [apply rk4_first_value|].
  split; [apply classical_first_value|].
  cbn [firstn]. rewrite rk4_first_value, classical_first_value. lra.
Qed.

(** ** Configuration validation *)

(** The nominal constants with an end time of zero. *)
Definition end_at_zero : config := {|
  Lm := Lm nominal; Rm := Rm nominal; Km := Km nominal; Jm := Jm nominal;
  Cq := Cq nominal; Dm := Dm nominal; Ct := Ct nominal;
  lcpt := lcpt nominal; Jcpt := Jcpt nominal; Md := Md nominal;
  End_time := 0;
  volt := volt nominal;
  hstep := hstep nominal
|}.

Lemma nominal_valid : Spec.valid nominal.
Proof. unfold Spec.valid; cbn; repeat split; lra. Qed.

Lemma never_rejected (c : config) (fuel : nat) motor0 drone0 :
  ~ Spec.rejected (drone_sim c fuel motor0 drone0).
Proof.
  unfold Spec.rejected. intros E.
  pose proof (drone_sim_head c fuel motor0 drone0) as H.
  rewrite E in H. discriminate H.
Qed.

(** C6 fails: a configuration whose end time is 0 is not refused; the run
    starts and prints the initial record. *)
Lemma validation_counterexample :
  ~ (~ Spec.valid end_at_zero ->
     Spec.rejected (drone_sim end_at_zero 0 blank_motors blank_drone)).
Proof.
  intros H. apply (never_rejected end_at_zero 0 blank_motors blank_drone).
  apply H. unfold Spec.valid; cbn. lra.
Qed.

(** C6 as the program has it: there is no validation.  No run is refused,
    whatever the constants: the initial record is always printed.  The
    constants written in the source satisfy the positivity conditions, and
    with them the loop exits (on binary64, after 5001 turns). *)
Theorem no_configuration_is_refused (c : config) (fuel : nat)
    (motor0 : motor_array) (drone0 : drone_t) :
  ~ Spec.rejected (drone_sim c fuel motor0 drone0) /\
  hd_error (emitted (drone_sim c fuel motor0 drone0)) =
    Some (output (init c motor0 drone0)) /\
  Spec.valid nominal /\
  snd (time_column 5001 nominal_h nominal_End_time) = true.
Proof.
  split; [apply never_rejected|].
  split; [apply drone_sim_head|].
  split; [exact nominal_valid|].
  apply nominal_time_column.
Qed.

(** ** Output *)

Lemma PI_above : 3.14159 < PI.
Proof.
  destruct (PI_2_3_7_ineq 2) as [H _].
  unfold sum_f_R0, tg_alt, PI_2_3_7_tg, Ratan_seq in H. simpl in H.
  lra.
Qed.

Lemma PI_below : PI < 3.141593.
Proof.
  destruct (PI_2_3_7_ineq 3) as [_ H].
  unfold sum_f_R0, tg_alt, PI_2_3_7_tg, Ratan_seq in H. simpl in H.
  lra.
Qed.

Lemma RADPS2RPM_error : 0 < RADPS2RPM - Spec.rpm_factor < 1e-5.
Proof.
  pose proof PI_above. pose proof PI_below.
  unfold RADPS2RPM, Spec.rpm_factor.
  replace (60.0 / 2.0 / 3.14159) with (3000000 / 314159) by lra.
  replace (3000000 / 314159 - 60 / (2 * PI))
    with ((3000000 * PI - 30 * 314159) / (314159 * PI)) by (field; lra).
  split.
  - apply Rdiv_lt_0_compat; nra.
  - apply Rmult_lt_reg_r with (314159 * PI); [nra|].
    unfold Rdiv at 1. rewrite Rmult_assoc, Rinv_l by nra. nra.
Qed.


(** A stage of the motor equation at the nominal constants: with a current
    between 2 and 3 A and an angular velocity between 0 and 1 rad/s the
    increment is positive and at most 1. *)
Lemma omega_stage_positive (x t0 cur : R) :
  2 <= cur <= 3 -> 0 <= x <= 1 ->
  0 < 0.0001 * omega_dot nominal x t0 [cur] <= 1.
Proof.
  intros Hc Hx. unfold omega_dot, idx; cbn [nth Km Dm Cq Jm nominal].
  rewrite (Rmult_assoc 3.0e-8 x x).
  assert (Hxx : 0 <= x * x <= 1) by nra.
  set (xx := x * x) in *.
  lra.
Qed.

Lemma second_omega_positive :
  0 < omega (at_ (motor (state_at nominal blank_motors blank_drone 2)) RIGHT).
Proof.
  rewrite state_at_succ, body_motor; cbv zeta. cbn [omega].
  rewrite first_current, state_at_t.
  rewrite state_at_succ, body_motor; cbv zeta. cbn [omega].
  change (state_at nominal blank_motors blank_drone 0)
    with (init nominal blank_motors blank_drone).
  destruct (init_motor nominal blank_motors blank_drone RIGHT) as (-> & -> & _).
  rewrite init_t.
  change (volt nominal RIGHT) with 7.5.
  rewrite rk4_first_value.
  set (cur := 18994844197533299973 / 9370805000000000000).
  assert (Hc : 2 <= cur <= 3) by (unfold cur; lra).
  assert (E0 : rk4 (omega_dot nominal) 0 0 (hstep nominal) 1 [0] = 0).
  { unfold rk4, omega_dot, idx; cbn [firstn nth Km Dm Cq Jm nominal hstep].
    lra. }
  rewrite E0.
  unfold rk4; cbv zeta. cbn [firstn hstep nominal].
  set (tm := INR 1 * 0.0001).
  pose proof (omega_stage_positive 0 tm cur Hc) as H1.
  set (k1 := 0.0001 * omega_dot nominal 0 tm [cur]) in *.
  pose proof (omega_stage_positive (0 + 0.5 * 0.0001 * k1)
                (tm + 0.5 * 0.0001) cur Hc) as H2.
  set (k2 := 0.0001 * omega_dot nominal (0 + 0.5 * 0.0001 * k1)
                         (tm + 0.5 * 0.0001) [cur]) in *.
  pose proof (omega_stage_positive (0 + 0.5 * 0.0001 * k2)
                (tm + 0.5 * 0.0001) cur Hc) as H3.
  set (k3 := 0.0001 * omega_dot nominal (0 + 0.5 * 0.0001 * k2)
                         (tm + 0.5 * 0.0001) [cur]) in *.
  pose proof (omega_stage_positive (0 + 0.0001 * k3) (tm + 0.0001) cur Hc)
    as H4.
  set (k4 := 0.0001 * omega_dot nominal (0 + 0.0001 * k3) (tm + 0.0001) [cur])
    in *.
  assert (0 < k1 <= 1) by (apply H1; lra).
  assert (0 < k2 <= 1) by (apply H2; lra).
  assert (0 < k3 <= 1) by (apply H3; lra).
  assert (0 < k4 <= 1) by (apply H4; lra).
  lra.
Qed.

(** C8 fails on the third record of the nominal run: the right motor's
    angular velocity is positive there and the column printed is not that
    velocity times 60/(2 pi). *)
Lemma rpm_counterexample :
  let s := state_at nominal blank_motors blank_drone 2 in
  In (output s) (emitted (drone_sim nominal 2 blank_motors blank_drone)) /\
  row_rpm_R (output s) <> omega (at_ (motor s) RIGHT) * Spec.rpm_factor.
Proof.
  cbv zeta. split.
  - rewrite drone_sim_running;
      [|cbn; lra|rewrite nominal_turns; lia].
    unfold emitted; cbn [fst seq map]. right; right; left; reflexivity.
  - unfold output, print_state; cbn [row_rpm_R].
    pose proof second_omega_positive as Hpos.
    pose proof RADPS2RPM_error as [Herr _].
    intros E. apply Rmult_eq_reg_l in E; lra.
Qed.

(** C8 as the program has it: the two angular velocities are printed
    multiplied by the constant 60/2/3.14159, which exceeds 60/(2 pi) by less
    than 1e-5; the time, the two currents, q and theta are printed as they
    are. *)
Theorem printed_columns (tm : R) (mt : motor_array) (d : drone_t) :
  print_state tm mt d =
    {| row_t := tm;
       row_i_R := i (at_ mt RIGHT);
       row_i_L := i (at_ mt LEFT);
       row_rpm_R := omega (at_ mt RIGHT) * (60 / 2 / 3.14159);
       row_rpm_L := omega (at_ mt LEFT) * (60 / 2 / 3.14159);
       row_q := q d;
       row_theta := theta d |} /\
  0 < 60 / 2 / 3.14159 - 60 / (2 * PI) < 1e-5 /\
  (forall (c : config) (fuel : nat) (motor0 : motor_array) (drone0 : drone_t)
          (r : row),
     In r (emitted (drone_sim c fuel motor0 drone0)) ->
     exists n : nat,
       r = print_state (t (state_at c motor0 drone0 n))
             (motor (state_at c motor0 drone0 n))
             (drone (state_at c motor0 drone0 n))).
Proof.
  assert (EF : RADPS2RPM = 60 / 2 / 3.14159) by (unfold RADPS2RPM; lra).
  split; [|split].
  - unfold print_state. rewrite EF. reflexivity.
  - pose proof RADPS2RPM_error as H.
    unfold Spec.rpm_factor in H. rewrite EF in H. exact H.
  - intros c fuel motor0 drone0 r Hin.
    destruct (drone_sim_prefix c fuel motor0 drone0) as (n & _ & E).
    rewrite E in Hin. apply in_map_iff in Hin. destruct Hin as (k & <- & _).
    exists k. reflexivity.
Qed.


(** * Further properties of the program *)

(** ** The stepper on its own *)

(** At a zero of the derivative every increment vanishes. *)
Lemma rk4_rest f x t0 h n args :
  (forall t1, f x t1 (firstn n args) = 0) ->
  rk4 f x t0 h n args = x.
Proof.
  intros Hf. unfold rk4; cbv zeta.
  set (v := firstn n args) in *.
  rewrite (Hf t0), Rmult_0_r, Rmult_0_r, Rplus_0_r.
  rewrite (Hf (t0 + 0.5 * h)), Rmult_0_r, Rmult_0_r, Rplus_0_r.
  rewrite (Hf (t0 + 0.5 * h)), Rmult_0_r, Rmult_0_r, Rplus_0_r.
  rewrite (Hf (t0 + h)). lra.
Qed.

(** X11: only the first [n] variadic arguments reach the derivative: further
    arguments do not change the result. *)
Theorem rk4_ignores_further_arguments f x t0 h (args more : list R) :
  rk4 f x t0 h (length args) (args ++ more) = rk4 f x t0 h (length args) args.
Proof.
  unfold rk4.
  rewrite firstn_app, Nat.sub_diag, firstn_all.
  cbn [firstn]. rewrite app_nil_r. reflexivity.
Qed.

(** X10: for a derivative that ignores the time, the step of [rk4] with size h is
    the classical step of size h*h divided by h:
    h * (rk4 h - x) = classical (h*h) - x. *)
Theorem rk4_is_classical_of_squared_step f x t0 h n args :
  (forall y t1 t2 v, f y t1 v = f y t2 v) ->
  h * (rk4 f x t0 h n args - x) =
    Spec.rk4 f x t0 (h * h) (firstn n args) - x.
Proof.
  intros Hf. rewrite rk4_unfold. unfold Spec.rk4; cbv zeta.
  set (v := firstn n args).
  set (F1 := f x t0 v).
  rewrite (Hf (x + h * (h * F1) / 2) (t0 + h / 2) t0).
  rewrite (Hf (x + h * h * F1 / 2) (t0 + h * h / 2) t0).
  replace (x + h * h * F1 / 2) with (x + h * (h * F1) / 2) by (field).
  set (F2 := f (x + h * (h * F1) / 2) t0 v).
  rewrite (Hf (x + h * (h * F2) / 2) (t0 + h / 2) t0).
  rewrite (Hf (x + h * h * F2 / 2) (t0 + h * h / 2) t0).
  replace (x + h * h * F2 / 2) with (x + h * (h * F2) / 2) by (field).
  set (F3 := f (x + h * (h * F2) / 2) t0 v).
  rewrite (Hf (x + h * (h * F3)) (t0 + h) t0).
  rewrite (Hf (x + h * h * F3) (t0 + h * h) t0).
  replace (x + h * h * F3) with (x + h * (h * F3)) by ring.
  set (F4 := f (x + h * (h * F3)) t0 v).
  field.
Qed.

Lemma rk4_is_classical_of_squared_step_witness :
  (forall y t1 t2 v, i_dot nominal y t1 v = i_dot nominal y t2 v) /\
  0.0001 * (rk4 (i_dot nominal) 0 0 0.0001 2 [0; 7.5] - 0) =
    Spec.rk4 (i_dot nominal) 0 0 (0.0001 * 0.0001) (firstn 2 [0; 7.5]) - 0.
Proof.
  split; [reflexivity|].
  apply (rk4_is_classical_of_squared_step (i_dot nominal) 0 0 0.0001 2
           [0; 7.5]).
  reflexivity.
Defined.

(** ** Edge cases of the loop *)

(** X2: with an end time that is not positive the loop is never entered: the run
    prints the initial record only and is finished, whatever the step. *)
Theorem nonpositive_end_prints_initial_only (c : config) (fuel : nat)
    (motor0 : motor_array) (drone0 : drone_t) :
  End_time c <= 0 ->
  drone_sim c fuel motor0 drone0 = ([output (init c motor0 drone0)], true).
Proof.
  intros He. unfold drone_sim.
  rewrite (while_loop_exits c 0); [reflexivity| | |lia].
  - intros k Hk. lia.
  - change (Nat.iter 0 (body c) (init c motor0 drone0))
      with (init c motor0 drone0).
    rewrite init_t. exact He.
Qed.

Lemma nonpositive_end_prints_initial_only_witness :
  End_time end_at_zero <= 0 /\
  drone_sim end_at_zero 7 blank_motors blank_drone =
    ([output (init end_at_zero blank_motors blank_drone)], true).
Proof.
  assert (He : End_time end_at_zero <= 0) by (cbn; lra).
  split; [exact He|].
  apply (nonpositive_end_prints_initial_only end_at_zero 7 blank_motors
           blank_drone He).
Defined.

(** X3: with a step that is not positive and a positive end time the time never
    reaches the end time: the loop does not exit, and every turn prints one
    more record. *)
Theorem nonpositive_step_never_exits (c : config) (fuel : nat)
    (motor0 : motor_array) (drone0 : drone_t) :
  hstep c <= 0 -> 0 < End_time c ->
  finished (drone_sim c fuel motor0 drone0) = false /\
  length (emitted (drone_sim c fuel motor0 drone0)) = S fuel.
Proof.
  intros Hh He. unfold drone_sim.
  rewrite while_loop_running.
  - split; [reflexivity|].
    unfold emitted, outputs; cbn [fst length].
    now rewrite length_map, length_seq.
  - intros k _. rewrite iter_body_t, init_t, Rplus_0_l.
    pose proof (pos_INR k). nra.
Qed.

(** The nominal constants with a step of zero. *)
Definition zero_step : config := {|
  Lm := Lm nominal; Rm := Rm nominal; Km := Km nominal; Jm := Jm nominal;
  Cq := Cq nominal; Dm := Dm nominal; Ct := Ct nominal;
  lcpt := lcpt nominal; Jcpt := Jcpt nominal; Md := Md nominal;
  End_time := End_time nominal;
  volt := volt nominal;
  hstep := 0
|}.

Lemma nonpositive_step_never_exits_witness :
  hstep zero_step <= 0 /\ 0 < End_time zero_step /\
  finished (drone_sim zero_step 3 blank_motors blank_drone) = false.
Proof.
  assert (Hh : hstep zero_step <= 0) by (cbn; lra).
  assert (He : 0 < End_time zero_step) by (cbn; lra).
  split; [exact Hh|]. split; [exact He|].
  apply (nonpositive_step_never_exits zero_step 3 blank_motors blank_drone
           Hh He).
Defined.

(** ** Uninitialised locals *)

(** Two states with the same time and the same current fields. *)
Definition same_current (s s' : sim) : Prop :=
  t s = t s' /\
  (forall k : side,
     i (at_ (motor s) k) = i (at_ (motor s') k) /\
     omega (at_ (motor s) k) = omega (at_ (motor s') k) /\
     u (at_ (motor s) k) = u (at_ (motor s') k)) /\
  q (drone s) = q (drone s') /\
  theta (drone s) = theta (drone s').

(** A turn overwrites every snapshot field before reading it. *)
Lemma body_same_current (c : config) (s s' : sim) :
  same_current s s' -> body c s = body c s'.
Proof.
  intros (Ht & Hm & Hq & Hth).
  destruct (Hm RIGHT) as (HiR & HoR & HuR).
  destruct (Hm LEFT) as (HiL & HoL & HuL).
  open_state s. open_state s'. cbn in *. subst.
  reflexivity.
Qed.

Lemma output_same_current (s s' : sim) :
  same_current s s' -> output s = output s'.
Proof.
  intros (Ht & Hm & Hq & Hth).
  destruct (Hm RIGHT) as (HiR & HoR & _).
  destruct (Hm LEFT) as (HiL & HoL & _).
  unfold output, print_state. now rewrite Ht, HiR, HoR, HiL, HoL, Hq, Hth.
Qed.

Lemma init_same_current (c : config) motor0 drone0 motor0' drone0' :
  same_current (init c motor0 drone0) (init c motor0' drone0').
Proof.
  unfold same_current. rewrite !init_t.
  split; [reflexivity|]. split.
  - intros k.
    destruct (init_motor c motor0 drone0 k) as (-> & -> & ->).
    destruct (init_motor c motor0' drone0' k) as (-> & -> & ->).
    repeat split.
  - destruct (init_drone c motor0 drone0) as (-> & ->).
    destruct (init_drone c motor0' drone0') as (-> & ->).
    split; reflexivity.
Qed.

Lemma while_loop_same_current (c : config) (fuel : nat) (s s' : sim) :
  same_current s s' -> while_loop c fuel s = while_loop c fuel s'.
Proof.
  intros H. pose proof H as (Ht & _).
  destruct fuel as [|fuel]; cbn [while_loop]; rewrite Ht;
    [reflexivity|].
  now rewrite (body_same_current c s s' H).
Qed.

(** X1: what [drone_sim] prints does not depend on what its uninitialised locals
    hold: no snapshot field is read before [save_state] has written it. *)
Theorem output_independent_of_uninitialised (c : config) (fuel : nat)
    (motor0 motor0' : motor_array) (drone0 drone0' : drone_t) :
  drone_sim c fuel motor0 drone0 = drone_sim c fuel motor0' drone0'.
Proof.
  unfold drone_sim.
  pose proof (init_same_current c motor0 drone0 motor0' drone0') as H.
  rewrite (while_loop_same_current c fuel _ _ H).
  now rewrite (output_same_current _ _ H).
Qed.

(** ** The drone along the run *)

Lemma body_q (c : config) (s : sim) :
  q (drone (body c s)) =
    q (drone s) +
    hstep c * (Ct c * lcpt c / Jcpt c) *
      (omega (at_ (motor s) RIGHT) * omega (at_ (motor s) RIGHT) -
       omega (at_ (motor s) LEFT) * omega (at_ (motor s) LEFT)).
Proof.
  rewrite body_drone; cbv zeta. cbn [q].
  rewrite rk4_flat by reflexivity.
  unfold q_dot, idx; cbn [firstn nth]. unfold Rdiv. ring.
Qed.

Lemma body_theta (c : config) (s : sim) :
  theta (drone (body c s)) = theta (drone s) + hstep c * q (drone s).
Proof.
  rewrite body_drone; cbv zeta. cbn [theta].
  rewrite rk4_flat by reflexivity. reflexivity.
Qed.

Lemma body_omega_rest (c : config) (s : sim) (k : side) :
  i (at_ (motor s) k) = 0 -> omega (at_ (motor s) k) = 0 ->
  omega (at_ (motor (body c s)) k) = 0.
Proof.
  intros Hi Ho. rewrite body_motor; cbv zeta. cbn [omega].
  rewrite Hi, Ho. apply rk4_rest. intros t1.
  unfold omega_dot, idx; cbn [firstn nth]. unfold Rdiv. ring.
Qed.

(** X4: each equation reads the others through the snapshot, so a change takes
    one turn per equation to travel from the voltage to the angle: whatever
    the constants, both angular velocities are still 0 after the first turn,
    the drone rate q is still 0 after the second and the angle theta is still
    0 after the third. *)
Theorem coupling_delay (c : config) (motor0 : motor_array) (drone0 : drone_t) :
  let s := state_at c motor0 drone0 in
  (forall k : side, omega (at_ (motor (s 1%nat)) k) = 0) /\
  q (drone (s 1%nat)) = 0 /\ q (drone (s 2%nat)) = 0 /\
  theta (drone (s 1%nat)) = 0 /\ theta (drone (s 2%nat)) = 0 /\
  theta (drone (s 3%nat)) = 0.
Proof.
  cbv zeta.
  assert (Ho1 : forall k, omega (at_ (motor (state_at c motor0 drone0 1)) k) = 0).
  { intros k. rewrite state_at_succ.
    change (state_at c motor0 drone0 0) with (init c motor0 drone0).
    apply body_omega_rest; apply init_motor. }
  assert (Hq0 : q (drone (state_at c motor0 drone0 0)) = 0)
    by apply init_drone.
  assert (Hq1 : q (drone (state_at c motor0 drone0 1)) = 0).
  { rewrite state_at_succ, body_q, Hq0.
    change (state_at c motor0 drone0 0) with (init c motor0 drone0).
    destruct (init_motor c motor0 drone0 RIGHT) as (_ & -> & _).
    destruct (init_motor c motor0 drone0 LEFT) as (_ & -> & _).
    ring. }
  assert (Hq2 : q (drone (state_at c motor0 drone0 2)) = 0).
  { rewrite state_at_succ, body_q, Hq1, !Ho1. ring. }
  assert (Ht0 : theta (drone (state_at c motor0 drone0 0)) = 0)
    by apply init_drone.
  assert (Ht1 : theta (drone (state_at c motor0 drone0 1)) = 0).
  { rewrite state_at_succ, body_theta, Ht0, Hq0. ring. }
  assert (Ht2 : theta (drone (state_at c motor0 drone0 2)) = 0).
  { rewrite state_at_succ, body_theta, Ht1, Hq1. ring. }
  assert (Ht3 : theta (drone (state_at c motor0 drone0 3)) = 0).
  { rewrite state_at_succ, body_theta, Ht2, Hq2. ring. }
  repeat split; assumption.
Qed.

(** Sum of a list of numbers. *)
Definition total (l : list R) : R := fold_right Rplus 0 l.

Lemma total_app (l l' : list R) : total (l ++ l') = total l + total l'.
Proof.
  unfold total.
  induction l as [|a l IH]; cbn [app fold_right]; [lra|].
  rewrite IH. lra.
Qed.

Lemma total_snoc (f : nat -> R) (n : nat) :
  total (map f (seq 0 (S n))) = total (map f (seq 0 n)) + f n.
Proof.
  rewrite seq_S, map_app, total_app. unfold total at 2.
  cbn [Nat.add map fold_right]. lra.
Qed.

(** X5: after n turns the angle is h times the sum of the rates q of the states
    before each turn, and q is h Ct l / Jcpt times the sum of the differences
    of the squared angular velocities: two rectangle-rule sums. *)
Theorem drone_is_accumulated (c : config) (motor0 : motor_array)
    (drone0 : drone_t) (n : nat) :
  let s := state_at c motor0 drone0 in
  theta (drone (s n)) =
    hstep c * total (map (fun k => q (drone (s k))) (seq 0 n)) /\
  q (drone (s n)) =
    hstep c * (Ct c * lcpt c / Jcpt c) *
      total (map (fun k =>
                    omega (at_ (motor (s k)) RIGHT) ^ 2 -
                    omega (at_ (motor (s k)) LEFT) ^ 2) (seq 0 n)).
Proof.
  cbv zeta. induction n as [|n [IHt IHq]].
  - cbn [seq map total fold_right].
    change (state_at c motor0 drone0 0) with (init c motor0 drone0).
    destruct (init_drone c motor0 drone0) as (-> & ->). split; ring.
  - rewrite !total_snoc, state_at_succ, body_theta, body_q, IHt, IHq.
    split; ring.
Qed.

(** X12: with positive step, thrust coefficient, arm and inertia, a turn raises
    the drone rate q exactly when the right motor turns faster than the left
    one, in absolute value, at the start of the turn. *)
Theorem rate_follows_faster_motor (c : config) (s : sim) :
  0 < hstep c -> 0 < Ct c -> 0 < lcpt c -> 0 < Jcpt c ->
  (q (drone s) < q (drone (body c s)) <->
   Rabs (omega (at_ (motor s) LEFT)) < Rabs (omega (at_ (motor s) RIGHT))).
Proof.
  intros Hh HCt Hl HJ. rewrite body_q.
  set (oR := omega (at_ (motor s) RIGHT)).
  set (oL := omega (at_ (motor s) LEFT)).
  assert (HK : 0 < hstep c * (Ct c * lcpt c / Jcpt c)).
  { apply Rmult_lt_0_compat; [exact Hh|].
    apply Rdiv_lt_0_compat; [|exact HJ].
    now apply Rmult_lt_0_compat. }
  set (K := hstep c * (Ct c * lcpt c / Jcpt c)) in *.
  assert (Hsq : oL * oL < oR * oR <-> Rabs oL < Rabs oR).
  { split; intros H.
    - apply Rsqr_lt_abs_0. exact H.
    - apply Rsqr_lt_abs_1 in H. exact H. }
  rewrite <- Hsq. split; intros H; nra.
Qed.

Lemma rate_follows_faster_motor_witness :
  0 < hstep nominal /\ 0 < Ct nominal /\ 0 < lcpt nominal /\
  0 < Jcpt nominal /\
  (q (drone (init nominal blank_motors blank_drone)) <
     q (drone (body nominal (init nominal blank_motors blank_drone))) <->
   Rabs (omega (at_ (motor (init nominal blank_motors blank_drone)) LEFT)) <
     Rabs (omega (at_ (motor (init nominal blank_motors blank_drone)) RIGHT))).
Proof.
  assert (H1 : 0 < hstep nominal) by (cbn; lra).
  assert (H2 : 0 < Ct nominal) by (cbn; lra).
  assert (H3 : 0 < lcpt nominal) by (cbn; lra).
  assert (H4 : 0 < Jcpt nominal) by (cbn; lra).
  repeat (split; [assumption|]).
  apply (rate_follows_faster_motor nominal
           (init nominal blank_motors blank_drone) H1 H2 H3 H4).
Defined.

(** ** Exchanging the motors *)

Definition other (k : side) : side :=
  match k with RIGHT => LEFT | LEFT => RIGHT end.

(** The same constants with the two voltages exchanged. *)
Definition swap_volt (c : config) : config := {|
  Lm := Lm c; Rm := Rm c; Km := Km c; Jm := Jm c;
  Cq := Cq c; Dm := Dm c; Ct := Ct c;
  lcpt := lcpt c; Jcpt := Jcpt c; Md := Md c;
  End_time := End_time c;
  volt := fun k => volt c (other k);
  hstep := hstep c
|}.

(** [s'] is [s] with the motors exchanged and the drone turned over. *)
Definition mirrored (s s' : sim) : Prop :=
  (forall k : side,
     i (at_ (motor s') k) = i (at_ (motor s) (other k)) /\
     omega (at_ (motor s') k) = omega (at_ (motor s) (other k)) /\
     u (at_ (motor s') k) = u (at_ (motor s) (other k))) /\
  q (drone s') = - q (drone s) /\
  theta (drone s') = - theta (drone s) /\
  t s' = t s.

Lemma mirrored_body (c : config) (s s' : sim) :
  mirrored s s' -> mirrored (body c s) (body (swap_volt c) s').
Proof.
  intros (Hm & Hq & Hth & Ht). unfold mirrored.
  split; [|split; [|split]].
  - intros k. destruct (Hm k) as (Hi & Ho & Hu).
    rewrite !body_motor; cbv zeta. cbn [i omega u].
    rewrite Hi, Ho, Hu, Ht. repeat split.
  - rewrite !body_q, Hq.
    destruct (Hm RIGHT) as (_ & -> & _). destruct (Hm LEFT) as (_ & -> & _).
    cbn [other hstep Ct lcpt Jcpt swap_volt]. ring.
  - rewrite !body_theta, Hq, Hth. cbn [hstep swap_volt]. ring.
  - rewrite !body_t, Ht. reflexivity.
Qed.

(** X6: exchanging the two voltages exchanges the two motors and reverses the
    drone: after every turn the motor on one side has the current and angular
    velocity the other one has in the original run, and q and theta have the
    opposite sign. *)
Theorem exchanged_voltages_mirror_the_run (c : config)
    (motor0 motor0' : motor_array) (drone0 drone0' : drone_t) (n : nat) :
  let s := state_at c motor0 drone0 n in
  let s' := state_at (swap_volt c) motor0' drone0' n in
  (forall k : side,
     i (at_ (motor s') k) = i (at_ (motor s) (other k)) /\
     omega (at_ (motor s') k) = omega (at_ (motor s) (other k))) /\
  q (drone s') = - q (drone s) /\
  theta (drone s') = - theta (drone s).
Proof.
  cbv zeta.
  assert (H : mirrored (state_at c motor0 drone0 n)
                (state_at (swap_volt c) motor0' drone0' n)).
  { induction n as [|n IH].
    - change (mirrored (init c motor0 drone0)
                (init (swap_volt c) motor0' drone0')).
      unfold mirrored. rewrite !init_t.
      destruct (init_drone c motor0 drone0) as (-> & ->).
      destruct (init_drone (swap_volt c) motor0' drone0') as (-> & ->).
      split; [|repeat split; ring].
      intros k.
      destruct (init_motor c motor0 drone0 (other k)) as (-> & -> & ->).
      destruct (init_motor (swap_volt c) motor0' drone0' k) as (-> & -> & ->).
      repeat split.
    - rewrite !state_at_succ. now apply mirrored_body. }
  destruct H as (Hm & Hq & Hth & _).
  split; [|split; assumption].
  intros k. destruct (Hm k) as (Hi & Ho & _). now split.
Qed.

(** ** Equilibrium *)

(** X7: a motor whose current and angular velocity make both of its derivatives
    vanish keeps them through every turn. *)
Theorem motor_at_rest_stays (c : config) (s : sim) (k : side) (n : nat) :
  let m := at_ (motor s) k in
  u m - Rm c * i m - Km c * omega m = 0 ->
  Km c * i m - Dm c * omega m - Cq c * omega m * omega m = 0 ->
  i (at_ (motor (Nat.iter n (body c) s)) k) = i m /\
  omega (at_ (motor (Nat.iter n (body c) s)) k) = omega m.
Proof.
  cbv zeta. intros He Hm.
  assert (H : i (at_ (motor (Nat.iter n (body c) s)) k) = i (at_ (motor s) k) /\
              omega (at_ (motor (Nat.iter n (body c) s)) k) =
                omega (at_ (motor s) k) /\
              u (at_ (motor (Nat.iter n (body c) s)) k) = u (at_ (motor s) k)).
  { induction n as [|n (IHi & IHo & IHu)]; [repeat split|].
    rewrite Nat.iter_succ, body_motor; cbv zeta. cbn [i omega u].
    rewrite IHi, IHo, IHu. repeat split.
    - apply rk4_rest. intros t1.
      unfold i_dot, idx; cbn [firstn nth]. rewrite He.
      unfold Rdiv. ring.
    - apply rk4_rest. intros t1.
      unfold omega_dot, idx; cbn [firstn nth]. rewrite Hm.
      unfold Rdiv. ring. }
  destruct H as (Hi & Ho & _). now split.
Qed.

(** A motor turning at 1 rad/s with the current and the voltage that hold
    it there, under the nominal constants. *)
Definition steady_motor : motor_t :=
  {| i := 1 / 110000; omega := 1; u := 3.3e-3 + 1.2e-1 / 110000;
     i_ := 0; omega_ := 0; u_ := 0 |}.

Definition steady_sim : sim :=
  {| motor := {| motor_right := steady_motor; motor_left := steady_motor |};
     drone := blank_drone; t := 0 |}.

Lemma motor_at_rest_stays_witness :
  u steady_motor - Rm nominal * i steady_motor - Km nominal * omega steady_motor
    = 0 /\
  Km nominal * i steady_motor - Dm nominal * omega steady_motor -
    Cq nominal * omega steady_motor * omega steady_motor = 0 /\
  omega (at_ (motor (Nat.iter 5 (body nominal) steady_sim)) RIGHT) = 1.
Proof.
  assert (H1 : u steady_motor - Rm nominal * i steady_motor -
               Km nominal * omega steady_motor = 0) by (cbn; lra).
  assert (H2 : Km nominal * i steady_motor - Dm nominal * omega steady_motor -
               Cq nominal * omega steady_motor * omega steady_motor = 0)
    by (cbn; lra).
  split; [exact H1|]. split; [exact H2|].
  apply (motor_at_rest_stays nominal steady_sim RIGHT 5 H1 H2).
Defined.

(** ** What a turn does not depend on *)

(** The same constants with other voltages. *)
Definition with_volt (c : config) (v : side -> R) : config := {|
  Lm := Lm c; Rm := Rm c; Km := Km c; Jm := Jm c;
  Cq := Cq c; Dm := Dm c; Ct := Ct c;
  lcpt := lcpt c; Jcpt := Jcpt c; Md := Md c;
  End_time := End_time c;
  volt := v;
  hstep := hstep c
|}.

(** X8: each motor runs on its own: its current and angular velocity after any
    number of turns are fixed by its own voltage, whatever the voltage of the
    other motor and whatever the drone does. *)
Theorem motors_are_decoupled (c : config) (v v' : side -> R)
    (motor0 motor0' : motor_array) (drone0 drone0' : drone_t)
    (k : side) (n : nat) :
  v k = v' k ->
  let m := at_ (motor (state_at (with_volt c v) motor0 drone0 n)) k in
  let m' := at_ (motor (state_at (with_volt c v') motor0' drone0' n)) k in
  i m = i m' /\ omega m = omega m'.
Proof.
  intros Hv; cbv zeta.
  assert (H : forall n,
    let m := at_ (motor (state_at (with_volt c v) motor0 drone0 n)) k in
    let m' := at_ (motor (state_at (with_volt c v') motor0' drone0' n)) k in
    i m = i m' /\ omega m = omega m' /\ u m = u m' /\
    t (state_at (with_volt c v) motor0 drone0 n) =
      t (state_at (with_volt c v') motor0' drone0' n)).
  { clear n. intros n; cbv zeta. induction n as [|n (IHi & IHo & IHu & IHt)].
    - change (state_at (with_volt c v) motor0 drone0 0)
        with (init (with_volt c v) motor0 drone0).
      change (state_at (with_volt c v') motor0' drone0' 0)
        with (init (with_volt c v') motor0' drone0').
      rewrite !init_t.
      destruct (init_motor (with_volt c v) motor0 drone0 k) as (-> & -> & ->).
      destruct (init_motor (with_volt c v') motor0' drone0' k)
        as (-> & -> & ->).
      cbn [volt with_volt]. now rewrite Hv.
    - rewrite !state_at_succ, !body_motor, !body_t; cbv zeta.
      cbn [i omega u]. rewrite IHi, IHo, IHu, IHt. repeat split. }
  destruct (H n) as (Hi & Ho & _). now split.
Qed.

Lemma motors_are_decoupled_witness :
  nominal_volt RIGHT = (fun _ : side => 7.5) RIGHT /\
  i (at_ (motor (state_at (with_volt nominal nominal_volt)
                   blank_motors blank_drone 3)) RIGHT) =
  i (at_ (motor (state_at (with_volt nominal (fun _ => 7.5))
                   blank_motors blank_drone 3)) RIGHT).
Proof.
  split; [reflexivity|].
  pose proof (motors_are_decoupled nominal nominal_volt (fun _ => 7.5)
                blank_motors blank_motors blank_drone blank_drone RIGHT 3
                eq_refl) as H.
  cbv zeta in H. exact (proj1 H).
Defined.






(** The same constants with another mass. *)
Definition with_Md (c : config) (mass : R) : config := {|
  Lm := Lm c; Rm := Rm c; Km := Km c; Jm := Jm c;
  Cq := Cq c; Dm := Dm c; Ct := Ct c;
  lcpt := lcpt c; Jcpt := Jcpt c; Md := mass;
  End_time := End_time c;
  volt := volt c;
  hstep := hstep c
|}.

Lemma body_with_Md (c : config) (mass : R) (s : sim) :
  body (with_Md c mass) s = body c s.
Proof. reflexivity. Qed.

Lemma while_loop_with_Md (c : config) (mass : R) (fuel : nat) :
  forall s : sim, while_loop (with_Md c mass) fuel s = while_loop c fuel s.
Proof.
  induction fuel as [|fuel IH]; intros s; cbn [while_loop];
    cbn [End_time with_Md]; [reflexivity|].
  now rewrite body_with_Md, IH.
Qed.

(** X13: the mass of the drone, [Md], is declared and never read: the run prints
    the same records whatever its value. *)
Theorem mass_is_never_read (c : config) (mass : R) (fuel : nat)
    (motor0 : motor_array) (drone0 : drone_t) :
  drone_sim (with_Md c mass) fuel motor0 drone0 = drone_sim c fuel motor0 drone0.
Proof.
  unfold drone_sim. rewrite while_loop_with_Md. reflexivity.
Qed.

(** ** Snapshot *)

(** X15: saving twice is saving once; and since a turn begins by saving,
    a turn taken after [save_state] yields the same locals as the turn
    alone. *)
Theorem save_state_idempotent (c : config) (s : sim) :
  save_state (save_state s) = save_state s /\
  body c (save_state s) = body c s.
Proof. open_state s. split; reflexivity. Qed.
